(** * Singleton: an eagerly initialised, non-copyable, non-movable holder

    Verification of [singleton.cpp].  The translation unit consists of

    - the declaration of [class Singleton] (four deleted special members,
      a private defaulted default constructor, a private static data
      member [instance], a public static accessor [GetInstance]);
    - the body of [GetInstance]: [return &instance;];
    - the namespace-scope definition [Singleton Singleton::instance;].

    The development has two layers.

    - [Decl]: the class as it is declared, together with the C++ rules
      that decide whether an expression naming the class is well-formed
      (special member lookup, overload resolution between the copy and the
      move member, access control, aggregate initialisation).
    - [Runtime]: the process that results from loading the translation
      unit: static initialisation, the accessor as a state-passing
      function, and an executable step function over the actions that
      client threads can perform. *)

From stdpp Require Import base decidable option list strings gmap.

Open Scope string_scope.
Open Scope list_scope.

(* ===================================================================== *)
(** ** Declarations and static semantics                                  *)
(* ===================================================================== *)

Module Decl.

(** Access specifiers. *)
Inductive access := Public | Protected | Private.

(** The special member functions of a class. *)
Inductive special_member :=
  | DefaultCtor | CopyCtor | MoveCtor | CopyAssign | MoveAssign | Dtor.

(** How a member is defined on its first declaration:
    [= default], [= delete], or with a body of its own. *)
Inductive body := Defaulted | Deleted | UserProvided.

#[global] Instance access_eq_dec : EqDecision access.
Proof. solve_decision. Defined.
#[global] Instance special_member_eq_dec : EqDecision special_member.
Proof. solve_decision. Defined.
#[global] Instance body_eq_dec : EqDecision body.
Proof. solve_decision. Defined.

(** A user-declared special member. *)
Record special_decl := {
  sm_name : special_member;
  sm_access : access;
  sm_body : body;
  sm_explicit : bool
}.

(** A non-static data member; [f_trivial] says whether its own default
    initialisation is trivial. *)
Record field_decl := {
  f_name : string;
  f_access : access;
  f_trivial : bool
}.

(** A static member function. *)
Record static_fn_decl := {
  fn_name : string;
  fn_access : access;
  fn_noexcept : bool;
  fn_returns_pointer : bool
}.

Record class_decl := {
  cd_name : string;
  cd_specials : list special_decl;          (* user-declared, in source order *)
  cd_fields : list field_decl;              (* non-static data members *)
  cd_static_fields : list (string * access);
  cd_static_fns : list static_fn_decl;
  cd_bases : list access;                   (* non-virtual base classes *)
  cd_virtual : bool                         (* virtual functions or bases *)
}.

(** [class Singleton], member by member.

<<
    public:
      static inline Singleton* GetInstance() noexcept
      Singleton(const Singleton&) = delete;
      Singleton& operator=(const Singleton&) = delete;
      Singleton(Singleton&&) = delete;
      Singleton& operator=(Singleton&&) = delete;
    private:
      Singleton() = default;
      static Singleton instance;
>> *)
Definition Singleton : class_decl := {|
  cd_name := "Singleton";
  cd_specials :=
    [ {| sm_name := CopyCtor;    sm_access := Public;  sm_body := Deleted;   sm_explicit := false |};
      {| sm_name := CopyAssign;  sm_access := Public;  sm_body := Deleted;   sm_explicit := false |};
      {| sm_name := MoveCtor;    sm_access := Public;  sm_body := Deleted;   sm_explicit := false |};
      {| sm_name := MoveAssign;  sm_access := Public;  sm_body := Deleted;   sm_explicit := false |};
      {| sm_name := DefaultCtor; sm_access := Private; sm_body := Defaulted; sm_explicit := false |} ];
  cd_fields := [];
  cd_static_fields := [ ("instance", Private) ];
  cd_static_fns :=
    [ {| fn_name := "GetInstance"; fn_access := Public;
         fn_noexcept := true; fn_returns_pointer := true |} ];
  cd_bases := [];
  cd_virtual := false
|}.

(** *** Special member lookup *)

Definition user_declared (c : class_decl) (k : special_member) : option special_decl :=
  find (fun d => bool_decide (sm_name d = k)) (cd_specials c).

Definition declares (c : class_decl) (k : special_member) : bool :=
  bool_decide (is_Some (user_declared c k)).

Definition is_ctor (k : special_member) : bool :=
  match k with
  | DefaultCtor | CopyCtor | MoveCtor => true
  | _ => false
  end.

Definition implicit_decl (k : special_member) (b : body) : special_decl :=
  {| sm_name := k; sm_access := Public; sm_body := b; sm_explicit := false |}.

(** Members the compiler declares when the class does not
    ([class.default.ctor], [class.copy.ctor], [class.copy.assign],
    [class.dtor]). *)
Definition implicitly_declared (c : class_decl) (k : special_member) : option special_decl :=
  match k with
  | DefaultCtor =>
      if existsb (fun d => is_ctor (sm_name d)) (cd_specials c)
      then None else Some (implicit_decl k Defaulted)
  | CopyCtor | CopyAssign =>
      if declares c MoveCtor || declares c MoveAssign
      then Some (implicit_decl k Deleted) else Some (implicit_decl k Defaulted)
  | MoveCtor =>
      if declares c CopyCtor || declares c CopyAssign || declares c MoveAssign || declares c Dtor
      then None else Some (implicit_decl k Defaulted)
  | MoveAssign =>
      if declares c CopyCtor || declares c CopyAssign || declares c MoveCtor || declares c Dtor
      then None else Some (implicit_decl k Defaulted)
  | Dtor => Some (implicit_decl k Defaulted)
  end.

Definition lookup_special (c : class_decl) (k : special_member) : option special_decl :=
  match user_declared c k with
  | Some d => Some d
  | None => implicitly_declared c k
  end.

(** *** Overload resolution between the copy and the move member *)

(** Value category (and constness) of a source expression of the class
    type: [x], [std::as_const(x)], [std::move(x)],
    [std::move(std::as_const(x))]. *)
Inductive value_category := Lvalue | ConstLvalue | Xvalue | ConstXvalue.

(** Whether the parameter of member [k] binds to an argument of category
    [v]: [const Singleton&] binds to everything, [Singleton&&] only to a
    non-const rvalue. *)
Definition binds (k : special_member) (v : value_category) : bool :=
  match k, v with
  | (CopyCtor | CopyAssign), _ => true
  | (MoveCtor | MoveAssign), Xvalue => true
  | _, _ => false
  end.

(** The candidates are given best first; a deleted member is declared and
    takes part in the resolution, a member that is not declared does not. *)
Definition resolve (c : class_decl) (cands : list special_member)
    (v : value_category) : option special_decl :=
  head (omap (fun k => if binds k v then lookup_special c k else None) cands).

(** *** Aggregates *)

(** Language standards. *)
Inductive standard := Cxx11 | Cxx14 | Cxx17 | Cxx20 | Cxx23.

Definition is_public (a : access) : bool :=
  match a with Public => true | _ => false end.

Definition ctor_blocks_aggregate (std : standard) (d : special_decl) : bool :=
  is_ctor (sm_name d) &&
  match std with
  | Cxx11 | Cxx14 => bool_decide (sm_body d = UserProvided)
  | Cxx17 => bool_decide (sm_body d = UserProvided) || sm_explicit d
  | Cxx20 | Cxx23 => true                    (* any user-declared constructor *)
  end.

(** [dcl.init.aggr]/1.  Up to C++17 only a user-provided constructor (in
    C++17 also an explicit one) stops a class from being an aggregate;
    since C++20 (P1008R1) any user-declared constructor does. *)
Definition is_aggregate (std : standard) (c : class_decl) : bool :=
  negb (existsb (ctor_blocks_aggregate std) (cd_specials c))
  && forallb (fun f => is_public (f_access f)) (cd_fields c)
  && negb (cd_virtual c)
  && match std with
     | Cxx11 | Cxx14 => bool_decide (cd_bases c = [])
     | _ => forallb is_public (cd_bases c)
     end.

(** *** Expressions that use the class *)

Inductive storage := Automatic | Dynamic.

Inductive init_form :=
  | DefaultInit                      (* Singleton s;      new Singleton     *)
  | ValueInit                        (* Singleton()       new Singleton()   *)
  | EmptyListInit                    (* Singleton s{};    new Singleton{}   *)
  | InitFrom (v : value_category).   (* Singleton s(e);   new Singleton(e)  *)

Inductive expr_use :=
  | Init (st : storage) (f : init_form)
  | AssignFrom (v : value_category)  (* x = e *)
  | CallStatic (name : string).      (* Singleton::name() *)

(** Where the expression appears. *)
Inductive context := Outside | MemberOrFriend.

Definition accessible (ctx : context) (a : access) : bool :=
  match ctx with
  | MemberOrFriend => true
  | Outside => is_public a
  end.

(** A selected special member can be used when it is accessible and not
    deleted ([dcl.fct.def.delete]: a reference to a deleted function is
    ill-formed wherever it appears). *)
Definition usable (ctx : context) (d : special_decl) : bool :=
  accessible ctx (sm_access d) && negb (bool_decide (sm_body d = Deleted)).

(** The special members an initialisation selects; [None] when no
    candidate is viable. *)
Definition init_requires (std : standard) (c : class_decl) (f : init_form)
    : option (list special_decl) :=
  match f with
  | DefaultInit | ValueInit =>
      d ← lookup_special c DefaultCtor; Some [d]
  | EmptyListInit =>
      if is_aggregate std c
      then Some []                   (* aggregate initialisation: no constructor *)
      else d ← lookup_special c DefaultCtor; Some [d]
  | InitFrom v =>
      d ← resolve c [MoveCtor; CopyCtor] v; Some [d]
  end.

Definition dtor_requires (c : class_decl) (st : storage) : option (list special_decl) :=
  match st with
  | Automatic => d ← lookup_special c Dtor; Some [d]
  | Dynamic => Some []
  end.

Definition static_fn_ok (ctx : context) (c : class_decl) (name : string) : bool :=
  match find (fun f => bool_decide (fn_name f = name)) (cd_static_fns c) with
  | Some f => accessible ctx (fn_access f)
  | None => false
  end.

(** Whether the use is accepted by the compiler. *)
Definition compiles (std : standard) (ctx : context) (c : class_decl)
    (u : expr_use) : bool :=
  match u with
  | Init st f =>
      match init_requires std c f, dtor_requires c st with
      | Some ds, Some dd => forallb (usable ctx) (ds ++ dd)
      | _, _ => false
      end
  | AssignFrom v =>
      match resolve c [MoveAssign; CopyAssign] v with
      | Some d => usable ctx d
      | None => false
      end
  | CallStatic name => static_fn_ok ctx c name
  end.

(** *** Triviality of default construction *)

(** [class.default.ctor]: the default constructor is trivial when it is
    not user-provided, the class has no virtual functions or bases, and
    every base and member is trivially default-constructible. *)
Definition trivial_default_ctor (c : class_decl) : bool :=
  match lookup_special c DefaultCtor with
  | Some d =>
      bool_decide (sm_body d = Defaulted)
      && negb (cd_virtual c)
      && bool_decide (cd_bases c = [])
      && forallb f_trivial (cd_fields c)
  | None => false
  end.

End Decl.

(* ===================================================================== *)
(** ** The running process                                                *)
(* ===================================================================== *)

Module Runtime.
Import Decl.

(** Objects of the class type that a process can hold: the static data
    member, and the objects that client code brings into existence. *)
Inductive object_id :=
  | StaticInstance                 (* Singleton::instance *)
  | Created (n : nat).             (* the n-th object made by client code *)

#[global] Instance object_id_eq_dec : EqDecision object_id.
Proof. solve_decision. Defined.

#[global] Instance object_id_countable : Countable object_id.
Proof.
  refine (inj_countable'
            (fun o => match o with StaticInstance => None | Created n => Some n end)
            (fun x => match x with None => StaticInstance | Some n => Created n end) _).
  by intros [].
Defined.

Inductive pointer :=
  | nullptr
  | address_of (o : object_id).

#[global] Instance pointer_eq_dec : EqDecision pointer.
Proof. solve_decision. Defined.

(** The two states of the holder's storage. *)
Inductive holder_state := Uninitialized | Ready.

(** Life cycle of the process. *)
Inductive phase :=
  | NotStarted      (* image not loaded, no code runs *)
  | Startup         (* static initialisation done; dynamic initialisers run *)
  | InMain          (* main entered *)
  | Exited.

#[global] Instance holder_state_eq_dec : EqDecision holder_state.
Proof. solve_decision. Defined.
#[global] Instance phase_eq_dec : EqDecision phase.
Proof. solve_decision. Defined.

Record process := {
  ph : phase;
  holder : holder_state;            (* storage of Singleton::instance *)
  objects : gset object_id;         (* live objects of the class type *)
  created : nat;                    (* objects made by client code so far *)
  allocations : nat;                (* heap allocations performed so far *)
  globals : gmap string Z           (* other static objects constructed so far *)
}.

(** What a call can produce: a value, or an exception leaving it. *)
Inductive outcome (A : Type) :=
  | Returned (a : A)
  | Thrown (what : string).
Arguments Returned {A} a.
Arguments Thrown {A} what.

(** [static inline Singleton* GetInstance() noexcept { return &instance; }] *)
Definition GetInstance (s : process) : outcome pointer * process :=
  (Returned (address_of StaticInstance), s).

(** [Singleton() = default;] for a class without bases and non-static data
    members: no member is initialised and there is no body. *)
Definition Singleton_ctor (s : process) : outcome unit * process :=
  (Returned tt, s).

(** The lifetime of [o] begins. *)
Definition begin_lifetime (o : object_id) (s : process) : process :=
  {| ph := ph s;
     holder := match o with StaticInstance => Ready | Created _ => holder s end;
     objects := {[ o ]} ∪ objects s;
     created := created s;
     allocations := allocations s;
     globals := globals s |}.

Definition set_phase (p : phase) (s : process) : process :=
  {| ph := p; holder := holder s; objects := objects s; created := created s;
     allocations := allocations s; globals := globals s |}.

(** Process teardown: the lifetime of every object ends. *)
Definition teardown (s : process) : process :=
  {| ph := Exited; holder := holder s; objects := ∅; created := created s;
     allocations := allocations s; globals := globals s |}.

(** Runs the default constructor for [o]. *)
Definition construct (o : object_id) (s : process) : process :=
  match Singleton_ctor s with
  | (Returned _, s') => begin_lifetime o s'
  | (Thrown _, s') => s'
  end.

(** [Singleton Singleton::instance;]

    The variable has static storage duration and no initialiser.  When the
    default constructor of its class is trivial its initialisation is
    static: it is complete when the image is loaded.  Otherwise the
    constructor runs as a dynamic initialiser during start-up, in an order
    relative to the other translation units' initialisers that is not
    specified. *)
Definition load (c : class_decl) (s : process) : process :=
  if trivial_default_ctor c
  then construct StaticInstance (set_phase Startup s)
  else set_phase Startup s.

(** Before the image is loaded. *)
Definition initial : process :=
  {| ph := NotStarted; holder := Uninitialized; objects := ∅; created := 0;
     allocations := 0; globals := ∅ |}.

(** Reading through a pointer. *)
Definition deref (s : process) (p : pointer) : option object_id :=
  match p with
  | nullptr => None
  | address_of o => if decide (o ∈ objects s) then Some o else None
  end.

(** *** Actions and steps *)

Inductive action :=
  | LoadImage                             (* the image is loaded *)
  | InitGlobal (name : string) (v : Z)    (* dynamic initialiser of another static object *)
  | InitInstance                          (* dynamic initialiser of the instance, if it has one *)
  | EnterMain
  | Client (t : nat) (u : expr_use)       (* thread [t] evaluates [u] outside the class *)
  | Exit.

Inductive event :=
  | Observed (t : nat) (p : pointer) (h : holder_state)   (* a call returned [p]; holder was [h] *)
  | Raised (t : nat) (what : string).                     (* a call threw *)

Definition running (s : process) : bool :=
  match ph s with
  | Startup | InMain => true
  | _ => false
  end.

(** The effect of a client expression that the compiler accepted: a call
    of the accessor is observed by the calling thread, an initialisation
    begins the lifetime of a new object, an assignment creates nothing. *)
Definition client (t : nat) (u : expr_use) (s : process) : process * list event :=
  match u with
  | CallStatic name =>
      if decide (name = "GetInstance")
      then match GetInstance s with
           | (Returned p, s') => (s', [Observed t p (holder s)])
           | (Thrown w, s') => (s', [Raised t w])
           end
      else (s, [])
  | Init st _ =>
      let s' := begin_lifetime (Created (created s)) s in
      ({| ph := ph s'; holder := holder s'; objects := objects s';
          created := S (created s');
          allocations := match st with
                         | Dynamic => S (allocations s')
                         | Automatic => allocations s'
                         end;
          globals := globals s' |}, [])
  | AssignFrom _ => (s, [])
  end.

(** One step of a process built from class [c] under standard [std];
    [None] when the action cannot happen in that state. *)
Definition step (std : standard) (c : class_decl) (s : process) (a : action)
    : option (process * list event) :=
  match a with
  | LoadImage =>
      if decide (ph s = NotStarted) then Some (load c s, []) else None
  | InitGlobal name v =>
      if decide (ph s = Startup)
      then Some ({| ph := ph s; holder := holder s; objects := objects s;
                    created := created s; allocations := allocations s;
                    globals := <[name := v]> (globals s) |}, [])
      else None
  | InitInstance =>
      if decide (ph s = Startup ∧ holder s = Uninitialized)
      then Some (construct StaticInstance s, [])
      else None
  | EnterMain =>
      if decide (ph s = Startup ∧ holder s = Ready)
      then Some (set_phase InMain s, [])
      else None
  | Client t u =>
      if running s && compiles std Outside c u
      then Some (client t u s)
      else None
  | Exit =>
      if decide (ph s = InMain) then Some (teardown s, []) else None
  end.

(** A whole execution; the events are collected in order. *)
Fixpoint run (std : standard) (c : class_decl) (s : process) (acts : list action)
    : option (process * list event) :=
  match acts with
  | [] => Some (s, [])
  | a :: rest =>
      match step std c s a with
      | Some (s', evs) =>
          match run std c s' rest with
          | Some (s'', evs') => Some (s'', evs ++ evs')
          | None => None
          end
      | None => None
      end
  end.

(** The operations of the public contract: calls of the accessor, and the
    copy and move operations (which the class forbids).  Everything that is
    not client code belongs to the environment. *)
Definition in_contract (a : action) : bool :=
  match a with
  | Client _ (Init _ (InitFrom _)) => true
  | Client _ (Init _ _) => false
  | _ => true
  end.

(** The class with [Singleton() {}] in place of [Singleton() = default;]:
    the same declaration, the constructor user-provided. *)
Definition Singleton_user_ctor : class_decl :=
  {| cd_name := cd_name Singleton;
     cd_specials :=
       map (fun d => if decide (sm_name d = DefaultCtor)
                     then {| sm_name := DefaultCtor; sm_access := sm_access d;
                             sm_body := UserProvided; sm_explicit := sm_explicit d |}
                     else d) (cd_specials Singleton);
     cd_fields := cd_fields Singleton;
     cd_static_fields := cd_static_fields Singleton;
     cd_static_fns := cd_static_fns Singleton;
     cd_bases := cd_bases Singleton;
     cd_virtual := cd_virtual Singleton |}.

(** *** Invariants and sample executions used below *)

Definition with_globals (g : gmap string Z) (s : process) : process :=
  {| ph := ph s; holder := holder s; objects := objects s; created := created s;
     allocations := allocations s; globals := g |}.

Definition is_init_global (a : action) : bool :=
  match a with
  | InitGlobal _ _ => true
  | _ => false
  end.

(** Before the load nothing exists; while code runs the holder is ready
    and the instance is alive; the holder stays ready afterwards. *)
Definition constructed (s : process) : Prop :=
  match ph s with
  | NotStarted => holder s = Uninitialized ∧ objects s = ∅
  | Startup | InMain => holder s = Ready ∧ StaticInstance ∈ objects s
  | Exited => holder s = Ready
  end.

(** What a step can emit: only observations of the instance's address,
    made while the holder is ready. *)
Definition good_event (e : event) : Prop :=
  ∃ t, e = Observed t (address_of StaticInstance) Ready.

(** Before the load and after teardown there is no object of the class;
    in between the instance is the only one. *)
Definition sole (s : process) : Prop :=
  match ph s with
  | NotStarted | Exited => objects s = ∅ ∧ created s = 0
  | Startup | InMain => objects s = {[ StaticInstance ]} ∧ created s = 0
  end.

(** Two calls, the first by thread 0 during start-up, the second by
    thread 7 in [main]. *)
Definition two_calls : list action :=
  [ LoadImage; Client 0 (CallStatic "GetInstance"); EnterMain;
    Client 7 (CallStatic "GetInstance") ].

Definition two_observations : list event :=
  [ Observed 0 (address_of StaticInstance) Ready;
    Observed 7 (address_of StaticInstance) Ready ].

Definition after_load : process :=
  {| ph := Startup; holder := Ready; objects := {[ StaticInstance ]}; created := 0;
     allocations := 0; globals := ∅ |}.

Definition in_main : process :=
  {| ph := InMain; holder := Ready; objects := {[ StaticInstance ]}; created := 0;
     allocations := 0; globals := ∅ |}.

(** Client code in [main] that writes [Singleton s{};]. *)
Definition brace_init_program : list action :=
  [ LoadImage; EnterMain; Client 0 (Init Automatic EmptyListInit) ].

End Runtime.

(* ===================================================================== *)
(** ** Further uses of the class                                          *)
(* ===================================================================== *)

Module Usage.
Import Decl Runtime.

(** The initialisations that call the default constructor:
    [Singleton s;] and [Singleton()]. *)
Definition calls_default_ctor (f : init_form) : bool :=
  match f with
  | DefaultInit | ValueInit => true
  | _ => false
  end.

(** [delete p] for [p] of type [Singleton*]: the destructor has to be
    accessible and not deleted ([expr.delete]). *)
Definition delete_compiles (ctx : context) (c : class_decl) : bool :=
  match lookup_special c Dtor with
  | Some d => usable ctx d
  | None => false
  end.

(** A client action that calls a static member function. *)
Definition is_static_call (a : action) : bool :=
  match a with
  | Client _ (CallStatic _) => true
  | _ => false
  end.

(** The threads that call the accessor, in the order of their calls. *)
Definition callers (acts : list action) : list nat :=
  omap (fun a => match a with
                 | Client t (CallStatic name) =>
                     if decide (name = "GetInstance") then Some t else None
                 | _ => None
                 end) acts.

(** What a caller is told. *)
Definition answer (t : nat) : event :=
  Observed t (address_of StaticInstance) Ready.

(** A class with a trivial default constructor of its own: one public
    data member of a trivially constructible type and nothing declared. *)
Definition plain_struct : class_decl :=
  {| cd_name := "Plain";
     cd_specials := [];
     cd_fields := [ {| f_name := "value"; f_access := Public; f_trivial := true |} ];
     cd_static_fields := [ ("instance", Private) ];
     cd_static_fns :=
       [ {| fn_name := "GetInstance"; fn_access := Public;
            fn_noexcept := true; fn_returns_pointer := true |} ];
     cd_bases := [];
     cd_virtual := false |}.

(** Once the image of a class with a trivial default constructor is
    loaded, the holder is ready. *)
Definition ready_after_load (s : process) : Prop :=
  ph s = NotStarted ∨ holder s = Ready.

(** Client code in [main] that writes [Singleton s{};] [n] times. *)
Definition brace_inits (n : nat) : list action :=
  LoadImage :: EnterMain :: replicate n (Client 0 (Init Automatic EmptyListInit)).

(** The program [brace_inits n] builds under [std] and runs to a state in
    which [n] objects of the class live beside the static instance. *)
Definition overpopulated (std : standard) (n : nat) : Prop :=
  ∃ s, run std Singleton initial (brace_inits n) = Some (s, [])
       ∧ running s = true
       ∧ StaticInstance ∈ objects s
       ∧ created s = n
       ∧ size (objects s) = S n.

End Usage.

(* ===================================================================== *)
(** ** Static rejection of copy, move and construction                    *)
(* ===================================================================== *)

Module StaticProofs.
Import Decl.

Lemma lookup_copy_ctor :
  lookup_special Singleton CopyCtor
  = Some {| sm_name := CopyCtor; sm_access := Public; sm_body := Deleted; sm_explicit := false |}.
Proof. reflexivity. Qed.

Lemma lookup_move_ctor :
  lookup_special Singleton MoveCtor
  = Some {| sm_name := MoveCtor; sm_access := Public; sm_body := Deleted; sm_explicit := false |}.
Proof. reflexivity. Qed.

Lemma lookup_default_ctor :
  lookup_special Singleton DefaultCtor
  = Some {| sm_name := DefaultCtor; sm_access := Private; sm_body := Defaulted; sm_explicit := false |}.
Proof. reflexivity. Qed.

(** The destructor is not declared by the class; the implicit one is
    public and defaulted. *)
Lemma lookup_dtor :
  lookup_special Singleton Dtor = Some (implicit_decl Dtor Defaulted).
Proof. reflexivity. Qed.

(** A deleted member is unusable from every context. *)
Lemma deleted_unusable ctx d : sm_body d = Deleted → usable ctx d = false.
Proof.
  intros Hd. unfold usable. rewrite Hd.
  rewrite bool_decide_eq_true_2 by done. simpl. apply andb_false_r.
Qed.

(** Every candidate of a construction or an assignment from an expression
    of the class type is deleted, whatever its value category. *)
Lemma resolve_ctor_deleted v d :
  resolve Singleton [MoveCtor; CopyCtor] v = Some d → sm_body d = Deleted.
Proof. destruct v; intros [= <-]; reflexivity. Qed.

Lemma resolve_assign_deleted v d :
  resolve Singleton [MoveAssign; CopyAssign] v = Some d → sm_body d = Deleted.
Proof. destruct v; intros [= <-]; reflexivity. Qed.

Lemma init_from_rejected std ctx st v :
  compiles std ctx Singleton (Init st (InitFrom v)) = false.
Proof. destruct ctx, st, v; reflexivity. Qed.

Lemma assign_from_rejected std ctx v :
  compiles std ctx Singleton (AssignFrom v) = false.
Proof. destruct ctx, v; reflexivity. Qed.

(** Which standards make the class an aggregate. *)
Lemma Singleton_aggregate std :
  is_aggregate std Singleton
  = match std with Cxx20 | Cxx23 => false | _ => true end.
Proof. destruct std; reflexivity. Qed.

(** An initialisation that calls the default constructor is rejected
    outside the class under every standard. *)
Lemma default_ctor_call_rejected std st f :
  f ≠ EmptyListInit →
  compiles std Outside Singleton (Init st f) = false.
Proof.
  intros Hf. destruct f as [| | |v]; try done.
  - destruct st; reflexivity.
  - destruct st; reflexivity.
  - apply init_from_rejected.
Qed.

(** From C++20 on no initialisation outside the class is accepted. *)
Lemma construction_rejected_cxx20 std st f :
  is_aggregate std Singleton = false →
  compiles std Outside Singleton (Init st f) = false.
Proof.
  intros Hagg. destruct f as [| | |v].
  - destruct st; reflexivity.
  - destruct st; reflexivity.
  - unfold compiles, init_requires. rewrite Hagg. destruct st; reflexivity.
  - apply init_from_rejected.
Qed.

(** The only use that is accepted outside the class under every standard
    is the call of the accessor. *)
Lemma call_accepted std ctx name :
  compiles std ctx Singleton (CallStatic name) = bool_decide (name = "GetInstance").
Proof.
  unfold compiles, static_fn_ok. simpl.
  case_bool_decide as Hn; simpl.
  - rewrite bool_decide_eq_true_2 by done. by destruct ctx.
  - rewrite bool_decide_eq_false_2 by done. done.
Qed.

(** C3.  Copying is rejected at build time.  Under every standard and in
    every context (outside the class as well as inside it), the class
    exposes no usable copy operation: the copy constructor and the copy
    assignment operator it declares cannot be used, and every
    initialisation or assignment that overload resolution sends to one of
    them does not compile.  A non-const and a const lvalue source are such
    uses. *)
Theorem copy_is_rejected (std : standard) (ctx : context) :
  (∀ k d, k = CopyCtor ∨ k = CopyAssign →
          lookup_special Singleton k = Some d → usable ctx d = false) ∧
  (∀ st v, sm_name <$> resolve Singleton [MoveCtor; CopyCtor] v = Some CopyCtor →
           compiles std ctx Singleton (Init st (InitFrom v)) = false) ∧
  (∀ v, sm_name <$> resolve Singleton [MoveAssign; CopyAssign] v = Some CopyAssign →
        compiles std ctx Singleton (AssignFrom v) = false) ∧
  (∀ v, v = Lvalue ∨ v = ConstLvalue →
        sm_name <$> resolve Singleton [MoveCtor; CopyCtor] v = Some CopyCtor ∧
        sm_name <$> resolve Singleton [MoveAssign; CopyAssign] v = Some CopyAssign).
Proof.
  repeat split.
  - intros k d [-> | ->] [= <-]; by apply deleted_unusable.
  - intros st v _. apply init_from_rejected.
  - intros v _. apply assign_from_rejected.
  - destruct H as [-> | ->]; reflexivity.
  - destruct H as [-> | ->]; reflexivity.
Qed.

Lemma copy_is_rejected_witness :
  usable Outside {| sm_name := CopyCtor; sm_access := Public; sm_body := Deleted;
                    sm_explicit := false |} = false ∧
  compiles Cxx17 Outside Singleton (Init Automatic (InitFrom Lvalue)) = false ∧
  compiles Cxx17 Outside Singleton (AssignFrom ConstLvalue) = false.
Proof.
  destruct (copy_is_rejected Cxx17 Outside) as (H1 & H2 & H3 & _).
  split; [| split].
  - apply (H1 CopyCtor); [left; reflexivity | reflexivity].
  - apply H2. reflexivity.
  - apply H3. reflexivity.
Defined.

(** C4.  Moving is rejected at build time.  Under every standard and in
    every context, the class exposes no usable move operation: the move
    constructor and the move assignment operator it declares cannot be
    used, and every initialisation or assignment that overload resolution
    sends to one of them does not compile.  A [std::move] source is such a
    use. *)
Theorem move_is_rejected (std : standard) (ctx : context) :
  (∀ k d, k = MoveCtor ∨ k = MoveAssign →
          lookup_special Singleton k = Some d → usable ctx d = false) ∧
  (∀ st v, sm_name <$> resolve Singleton [MoveCtor; CopyCtor] v = Some MoveCtor →
           compiles std ctx Singleton (Init st (InitFrom v)) = false) ∧
  (∀ v, sm_name <$> resolve Singleton [MoveAssign; CopyAssign] v = Some MoveAssign →
        compiles std ctx Singleton (AssignFrom v) = false) ∧
  sm_name <$> resolve Singleton [MoveCtor; CopyCtor] Xvalue = Some MoveCtor ∧
  sm_name <$> resolve Singleton [MoveAssign; CopyAssign] Xvalue = Some MoveAssign.
Proof.
  repeat split.
  - intros k d [-> | ->] [= <-]; by apply deleted_unusable.
  - intros st v _. apply init_from_rejected.
  - intros v _. apply assign_from_rejected.
Qed.

Lemma move_is_rejected_witness :
  usable MemberOrFriend {| sm_name := MoveAssign; sm_access := Public; sm_body := Deleted;
                           sm_explicit := false |} = false ∧
  compiles Cxx20 Outside Singleton (Init Dynamic (InitFrom Xvalue)) = false ∧
  compiles Cxx11 MemberOrFriend Singleton (AssignFrom Xvalue) = false.
Proof.
  split; [| split].
  - destruct (move_is_rejected Cxx20 MemberOrFriend) as (H1 & _).
    apply (H1 MoveAssign); [right; reflexivity | reflexivity].
  - destruct (move_is_rejected Cxx20 Outside) as (_ & H2 & _).
    apply H2. reflexivity.
  - destruct (move_is_rejected Cxx11 MemberOrFriend) as (_ & _ & H3 & _).
    apply H3. reflexivity.
Defined.

End StaticProofs.

(* ===================================================================== *)
(** ** The accessor and the life cycle of the instance                    *)
(* ===================================================================== *)

Module RuntimeProofs.
Import Decl Runtime StaticProofs.

(** *** Equations of the definitions *)

Lemma construct_eq o s : construct o s = begin_lifetime o s.
Proof. reflexivity. Qed.

Lemma load_Singleton s :
  load Singleton s = begin_lifetime StaticInstance (set_phase Startup s).
Proof. reflexivity. Qed.

Lemma running_phase s : running s = true ↔ ph s = Startup ∨ ph s = InMain.
Proof.
  unfold running. destruct (ph s); split;
    try discriminate; try (intros [Hp | Hp]; discriminate Hp); auto.
Qed.

Lemma run_cons std c s a rest s2 evs2 :
  run std c s (a :: rest) = Some (s2, evs2) →
  ∃ s1 evs evs', step std c s a = Some (s1, evs)
                 ∧ run std c s1 rest = Some (s2, evs') ∧ evs2 = evs ++ evs'.
Proof.
  simpl. destruct (step std c s a) as [[s1 evs]|]; [| done].
  destruct (run std c s1 rest) as [[s3 evs']|] eqn:Hrest; [| done].
  intros [= <- <-]. by exists s1, evs, evs'.
Qed.

(** Case analysis of a step that happened: the guard of the action held. *)
Ltac step_cases H :=
  unfold step in H;
  repeat match type of H with
         | (if decide ?P then _ else _) = _ =>
             let D := fresh "Hdec" in destruct (decide P) as [D |]; [| discriminate H]
         | (if ?b then _ else _) = _ =>
             let E := fresh "E" in destruct b eqn:E; [| discriminate H]
         | Some (?x, ?y) = Some _ => injection H; clear H; intros <- <-
         end.

(** The effect of a client expression, case by case. *)
Lemma client_call t s :
  client t (CallStatic "GetInstance") s
  = (s, [ Observed t (address_of StaticInstance) (holder s) ]).
Proof. reflexivity. Qed.

Lemma client_cases t u s s' evs :
  client t u s = (s', evs) →
  (evs = [] ∧ ph s' = ph s ∧ holder s' = holder s ∧ objects s ⊆ objects s')
  ∨ (evs = [ Observed t (address_of StaticInstance) (holder s) ] ∧ s' = s).
Proof.
  destruct u as [st f | v | name]; simpl.
  - intros [= <- <-]. left. simpl. repeat split. apply union_subseteq_r.
  - intros [= <- <-]. left. done.
  - destruct (decide (name = "GetInstance")); intros [= <- <-]; [by right | by left].
Qed.

(** *** Invariant of every execution *)

Lemma constructed_initial : constructed initial.
Proof. unfold constructed. simpl. done. Qed.

Lemma step_constructed std s a s' evs :
  step std Singleton s a = Some (s', evs) →
  constructed s → constructed s' ∧ Forall good_event evs.
Proof.
  intros Hstep Hc. unfold constructed in *.
  destruct a as [ | name v | | | t u | ]; step_cases Hstep.
  - rewrite load_Singleton. simpl.
    split; [| constructor].
    split; [reflexivity | apply elem_of_union_l, elem_of_singleton; reflexivity].
  - simpl. rewrite Hdec in *. split; [done | constructor].
  - destruct Hdec as [Hp Hh]. rewrite Hp in Hc. destruct Hc as [Hc _]. congruence.
  - simpl. destruct Hdec as [Hp Hh]. rewrite Hp in Hc. split; [done | constructor].
  - apply andb_true_iff in E as [Hrun Hcomp]. apply running_phase in Hrun.
    assert (holder s = Ready ∧ StaticInstance ∈ objects s) as [Hh Ho].
    { destruct Hrun as [Hp | Hp]; by rewrite Hp in Hc. }
    destruct (client t u s) as [s1 evs1] eqn:Hcl. injection Hstep as <- <-.
    apply client_cases in Hcl as [(-> & Hp & Hh' & Hsub) | (-> & ->)].
    + split; [| constructor]. rewrite Hp, Hh'.
      destruct Hrun as [-> | ->]; (split; [done | by apply Hsub]).
    + split; [by destruct Hrun as [-> | ->] |].
      constructor; [| constructor]. exists t. by rewrite Hh.
  - simpl. rewrite Hdec in Hc. split; [by destruct Hc | constructor].
Qed.

Lemma run_constructed std acts : ∀ s s' evs,
  run std Singleton s acts = Some (s', evs) →
  constructed s → constructed s' ∧ Forall good_event evs.
Proof.
  induction acts as [| a rest IH]; intros s s' evs Hrun Hc.
  - injection Hrun as <- <-. split; [done | constructor].
  - apply run_cons in Hrun as (s1 & evs1 & evs2 & Hstep & Hrest & ->).
    destruct (step_constructed _ _ _ _ _ Hstep Hc) as [Hc1 He1].
    destruct (IH _ _ _ Hrest Hc1) as [Hc' He2].
    split; [done | by apply Forall_app].
Qed.

Lemma step_ready std s a s' evs :
  step std Singleton s a = Some (s', evs) → holder s = Ready → holder s' = Ready.
Proof.
  intros Hstep Hr.
  destruct a as [ | name v | | | t u | ]; step_cases Hstep; try done.
  destruct (client t u s) as [s1 evs1] eqn:Hcl. injection Hstep as <- <-.
  apply client_cases in Hcl as [(_ & _ & Hh & _) | (_ & ->)]; congruence.
Qed.

(** *** Exactly one instance *)

Lemma sole_initial : sole initial.
Proof. unfold sole. simpl. done. Qed.

(** A step keeps the instance the only object as long as the action is an
    operation of the contract, or the class is not an aggregate. *)
Lemma step_sole std s a s' evs :
  step std Singleton s a = Some (s', evs) →
  in_contract a = true ∨ is_aggregate std Singleton = false →
  sole s → sole s'.
Proof.
  intros Hstep Hok Hs. unfold sole in *.
  destruct a as [ | name v | | | t u | ]; step_cases Hstep.
  - rewrite load_Singleton. simpl. rewrite Hdec in Hs. destruct Hs as [-> ->].
    split; [apply (right_id_L ∅ (∪)) | done].
  - simpl. by rewrite Hdec in *.
  - rewrite construct_eq. simpl. destruct Hdec as [Hp Hh].
    rewrite Hp in *. destruct Hs as [-> ->].
    split; [apply (idemp_L (∪)) | done].
  - simpl. destruct Hdec as [Hp Hh]. by rewrite Hp in Hs.
  - apply andb_true_iff in E as [Hrun Hcomp].
    destruct u as [st f | v | name]; simpl in Hstep.
    + exfalso. destruct Hok as [Hin | Hagg].
      * destruct f as [| | |v]; try discriminate Hin.
        by rewrite init_from_rejected in Hcomp.
      * by rewrite construction_rejected_cxx20 in Hcomp.
    + by injection Hstep as <- <-.
    + by destruct (decide (name = "GetInstance")); injection Hstep as <- <-.
  - simpl. rewrite Hdec in Hs. by destruct Hs as [_ ->].
Qed.

Lemma run_sole std acts : ∀ s s' evs,
  run std Singleton s acts = Some (s', evs) →
  Forall (fun a => in_contract a = true ∨ is_aggregate std Singleton = false) acts →
  sole s → sole s'.
Proof.
  induction acts as [| a rest IH]; intros s s' evs Hrun Hall Hs.
  - by injection Hrun as <- <-.
  - apply run_cons in Hrun as (s1 & evs1 & evs2 & Hstep & Hrest & _).
    apply Forall_cons in Hall as [Ha Hall].
    eapply IH; [exact Hrest | exact Hall |].
    eapply step_sole; eauto.
Qed.

(** Under a standard in which the class is not an aggregate the instance
    is the only object whatever the clients attempt. *)
Lemma one_instance_non_aggregate std acts s evs :
  is_aggregate std Singleton = false →
  run std Singleton initial acts = Some (s, evs) →
  running s = true →
  objects s = {[ StaticInstance ]}.
Proof.
  intros Hagg Hrun Hr.
  assert (sole s) as Hs.
  { eapply run_sole; [exact Hrun | | exact sole_initial].
    apply Forall_forall. intros a _. by right. }
  unfold sole in Hs. apply running_phase in Hr as [Hp | Hp]; rewrite Hp in Hs; apply Hs.
Qed.

(** *** Uniqueness of the address and of the instance *)

(** C1.  Every call of [GetInstance] returns the address of the one static
    instance: the result is the same in any two process states, and in
    every execution (any standard, any interleaving of any client
    threads) any two addresses that callers observed are identical, and
    are the address of [Singleton::instance]. *)
Theorem GetInstance_same_address :
  (∀ s1 s2, (GetInstance s1).1 = (GetInstance s2).1) ∧
  (∀ s, (GetInstance s).1 = Returned (address_of StaticInstance)) ∧
  (∀ std acts s evs t1 p1 h1 t2 p2 h2,
     run std Singleton initial acts = Some (s, evs) →
     Observed t1 p1 h1 ∈ evs → Observed t2 p2 h2 ∈ evs →
     p1 = p2 ∧ p1 = address_of StaticInstance).
Proof.
  split; [reflexivity | split; [reflexivity |]].
  intros std acts s evs t1 p1 h1 t2 p2 h2 Hrun H1 H2.
  destruct (run_constructed _ _ _ _ _ Hrun constructed_initial) as [_ Hev].
  rewrite Forall_forall in Hev.
  destruct (Hev _ H1) as [t1' [= _ -> _]].
  destruct (Hev _ H2) as [t2' [= _ -> _]].
  done.
Qed.

Lemma GetInstance_same_address_witness :
  run Cxx17 Singleton initial two_calls = Some (in_main, two_observations)
  ∧ address_of StaticInstance = address_of StaticInstance
  ∧ address_of StaticInstance = address_of StaticInstance.
Proof.
  split; [vm_compute; reflexivity |].
  destruct GetInstance_same_address as (_ & _ & H).
  apply (H Cxx17 two_calls in_main two_observations
           0 (address_of StaticInstance) Ready 7 (address_of StaticInstance) Ready).
  - vm_compute; reflexivity.
  - apply list_elem_of_here.
  - apply list_elem_of_further, list_elem_of_here.
Defined.

(** *** Eager initialisation *)

(** With a user-provided constructor the initialisation is dynamic, and a
    call made during start-up can run before it: the caller is handed the
    address of storage in which no object has been constructed. *)
Lemma dynamic_init_is_observable :
  ∃ s, run Cxx17 Singleton_user_ctor initial [ LoadImage; Client 0 (CallStatic "GetInstance") ]
       = Some (s, [ Observed 0 (address_of StaticInstance) Uninitialized ])
       ∧ deref s (address_of StaticInstance) = None.
Proof. eexists. split; vm_compute; reflexivity. Qed.

(** C5.  The instance is constructed by static initialisation when the
    image is loaded, before any call of the accessor can happen: the
    default constructor is trivial, so loading makes the holder ready; no
    client code runs before the load; in every execution each call, also
    one made during start-up right after the load, finds the holder ready;
    the accessor returns the same result without constructing anything
    whatever the state of the holder (it tests nothing); and no step takes
    a ready holder back. *)
Theorem eager_initialisation (std : standard) :
  trivial_default_ctor Singleton = true ∧
  (∀ s, ph s = NotStarted →
        ∃ s', step std Singleton s LoadImage = Some (s', [])
              ∧ holder s' = Ready ∧ StaticInstance ∈ objects s') ∧
  (∀ t u, step std Singleton initial (Client t u) = None) ∧
  (∀ acts s evs t p h,
     run std Singleton initial acts = Some (s, evs) →
     Observed t p h ∈ evs → h = Ready) ∧
  (∀ t, run std Singleton initial [ LoadImage; Client t (CallStatic "GetInstance") ]
        = Some (after_load, [ Observed t (address_of StaticInstance) Ready ])) ∧
  (∀ s, GetInstance s = (Returned (address_of StaticInstance), s)) ∧
  (∀ s a s' evs, step std Singleton s a = Some (s', evs) →
                 holder s = Ready → holder s' = Ready).
Proof.
  split; [reflexivity |]. split; [| split; [| split; [| split; [| split]]]].
  - intros s Hph. exists (load Singleton s). unfold step.
    rewrite decide_True by done. split; [done |].
    rewrite load_Singleton. simpl.
    split; [done | apply elem_of_union_l, elem_of_singleton; reflexivity].
  - intros t u. reflexivity.
  - intros acts s evs t p h Hrun Hin.
    destruct (run_constructed _ _ _ _ _ Hrun constructed_initial) as [_ Hev].
    rewrite Forall_forall in Hev.
    by destruct (Hev _ Hin) as [t' [= _ _ ->]].
  - intros t. destruct std; vm_compute; reflexivity.
  - reflexivity.
  - intros s a s' evs. apply step_ready.
Qed.

Lemma eager_initialisation_witness :
  (∃ s', step Cxx17 Singleton initial LoadImage = Some (s', [])
         ∧ holder s' = Ready ∧ StaticInstance ∈ objects s')
  ∧ Ready = Ready
  ∧ holder in_main = Ready.
Proof.
  destruct (eager_initialisation Cxx17) as (_ & H1 & _ & H3 & _ & _ & H6).
  split; [| split].
  - apply H1. reflexivity.
  - apply (H3 two_calls in_main two_observations 7 (address_of StaticInstance) Ready).
    + vm_compute; reflexivity.
    + apply list_elem_of_further, list_elem_of_here.
  - apply (H6 after_load EnterMain in_main []).
    + vm_compute; reflexivity.
    + reflexivity.
Defined.

(** *** Infallibility, purity, validity of the result *)

(** C6.  [GetInstance] cannot fail: in every state it returns a pointer
    and throws nothing; it is declared [noexcept] with a plain pointer as
    its result type; no execution contains a call that raised; and in
    every state in which code runs (start-up included) a call by any
    thread takes its step and yields its observation. *)
Theorem GetInstance_never_fails :
  (∀ s, ∃ p, (GetInstance s).1 = Returned p) ∧
  (∀ s w, (GetInstance s).1 ≠ Thrown w) ∧
  (∃ f, find (fun f => bool_decide (fn_name f = "GetInstance")) (cd_static_fns Singleton)
        = Some f ∧ fn_noexcept f = true ∧ fn_returns_pointer f = true) ∧
  (∀ std acts s evs t w,
     run std Singleton initial acts = Some (s, evs) → Raised t w ∉ evs) ∧
  (∀ std s t, running s = true →
     ∃ p, step std Singleton s (Client t (CallStatic "GetInstance"))
          = Some (s, [ Observed t p (holder s) ])).
Proof.
  split; [| split; [| split; [| split]]].
  - intros s. by eexists.
  - intros s w. discriminate.
  - eexists. split; [reflexivity | split; reflexivity].
  - intros std acts s evs t w Hrun Hin.
    destruct (run_constructed _ _ _ _ _ Hrun constructed_initial) as [_ Hev].
    rewrite Forall_forall in Hev.
    destruct (Hev _ Hin) as [t' Heq]. discriminate Heq.
  - intros std s t Hrun. exists (address_of StaticInstance).
    unfold step. rewrite Hrun, call_accepted. reflexivity.
Qed.

Lemma GetInstance_never_fails_witness :
  (Raised 7 "bad_alloc" ∉ two_observations)
  ∧ (∃ p, step Cxx17 Singleton after_load (Client 3 (CallStatic "GetInstance"))
          = Some (after_load, [ Observed 3 p (holder after_load) ])).
Proof.
  destruct GetInstance_never_fails as (_ & _ & _ & H4 & H5).
  split.
  - apply (H4 Cxx17 two_calls in_main). vm_compute; reflexivity.
  - apply H5. reflexivity.
Defined.

(** C7.  [GetInstance] has no side effect and allocates nothing: the
    state after the call is the state before it, so the holder, the set
    of live objects, the allocation count and every other static object
    are as they were; the step of a client that calls it leaves the
    process unchanged. *)
Theorem GetInstance_no_side_effect (s : process) :
  (GetInstance s).2 = s ∧
  allocations (GetInstance s).2 = allocations s ∧
  holder (GetInstance s).2 = holder s ∧
  objects (GetInstance s).2 = objects s ∧
  globals (GetInstance s).2 = globals s ∧
  (∀ std t s' evs,
     step std Singleton s (Client t (CallStatic "GetInstance")) = Some (s', evs) →
     s' = s).
Proof.
  repeat split.
  intros std t s' evs Hstep. unfold step in Hstep.
  destruct (running s && compiles std Outside Singleton (CallStatic "GetInstance"));
    [| discriminate Hstep].
  rewrite client_call in Hstep. by injection Hstep as <- _.
Qed.

Lemma GetInstance_no_side_effect_witness :
  (GetInstance in_main).2 = in_main ∧ in_main = in_main.
Proof.
  destruct (GetInstance_no_side_effect in_main) as (H1 & _ & _ & _ & _ & H6).
  split; [exact H1 |].
  apply (H6 Cxx17 7 in_main [ Observed 7 (address_of StaticInstance) Ready ]).
  vm_compute; reflexivity.
Defined.

(** Dynamic initialisers of other static objects leave the instance as
    the load made it. *)
Lemma run_init_globals std inits : ∀ s,
  Forall (fun a => is_init_global a = true) inits →
  ph s = Startup →
  ∃ s', run std Singleton s inits = Some (s', [])
        ∧ ph s' = Startup ∧ holder s' = holder s ∧ objects s' = objects s.
Proof.
  induction inits as [| a rest IH]; intros s Hall Hp.
  - by exists s.
  - apply Forall_cons in Hall as [Ha Hall].
    destruct a as [ | name v | | | t u | ]; try discriminate Ha.
    simpl. rewrite decide_True by done.
    set (s1 := {| ph := ph s; holder := holder s; objects := objects s;
                  created := created s; allocations := allocations s;
                  globals := <[name := v]> (globals s) |}).
    destruct (IH s1 Hall Hp) as (s' & -> & Hp' & Hh' & Ho').
    exists s'. split; [reflexivity | done].
Qed.

(** C8.  The construction of the payload is self-contained.  The class
    has no non-static data member, no base and nothing virtual, and its
    default constructor is trivial; the constructor returns without
    changing the state; loading the image and running the constructor
    commute with any change of the other static objects (they neither read
    nor write them); and whichever other static objects are dynamically
    initialised after the load, in whatever order, the start-up succeeds
    with the holder ready and the instance the one live object. *)
Theorem construction_self_contained :
  cd_fields Singleton = [] ∧ cd_bases Singleton = [] ∧ cd_virtual Singleton = false ∧
  trivial_default_ctor Singleton = true ∧
  (∀ s, Singleton_ctor s = (Returned tt, s)) ∧
  (∀ g s, load Singleton (with_globals g s) = with_globals g (load Singleton s)) ∧
  (∀ g o s, construct o (with_globals g s) = with_globals g (construct o s)) ∧
  (∀ std inits,
     Forall (fun a => is_init_global a = true) inits →
     ∃ s, run std Singleton initial (LoadImage :: inits) = Some (s, [])
          ∧ holder s = Ready ∧ objects s = {[ StaticInstance ]}).
Proof.
  repeat split.
  intros std inits Hall.
  destruct (run_init_globals std inits (load Singleton initial) Hall eq_refl)
    as (s & Hrun & _ & Hh & Ho).
  exists s. split; [| split].
  - simpl. simpl in Hrun. by rewrite Hrun.
  - by rewrite Hh.
  - rewrite Ho. rewrite load_Singleton. simpl. apply (right_id_L ∅ (∪)).
Qed.

Lemma construction_self_contained_witness :
  ∃ s, run Cxx17 Singleton initial
         [ LoadImage; InitGlobal "config" 1; InitGlobal "logger" 2 ] = Some (s, [])
       ∧ holder s = Ready ∧ objects s = {[ StaticInstance ]}.
Proof.
  destruct construction_self_contained as (_ & _ & _ & _ & _ & _ & _ & H).
  apply (H Cxx17 [ InitGlobal "config" 1; InitGlobal "logger" 2 ]).
  repeat constructor.
Defined.

(** C9.  [GetInstance] never returns a null pointer, and its result can
    be dereferenced for the life of the process: in every state reached
    by an execution in which code runs, the pointer returned there, and
    every pointer a caller observed earlier in the execution, is not null
    and designates the live static instance. *)
Theorem GetInstance_not_null :
  (∀ s, (GetInstance s).1 ≠ Returned nullptr) ∧
  (∀ std acts s evs p,
     run std Singleton initial acts = Some (s, evs) → running s = true →
     (GetInstance s).1 = Returned p →
     p ≠ nullptr ∧ deref s p = Some StaticInstance) ∧
  (∀ std acts s evs t p h,
     run std Singleton initial acts = Some (s, evs) → running s = true →
     Observed t p h ∈ evs →
     p ≠ nullptr ∧ deref s p = Some StaticInstance).
Proof.
  assert (∀ std acts s evs,
            run std Singleton initial acts = Some (s, evs) → running s = true →
            deref s (address_of StaticInstance) = Some StaticInstance) as Hderef.
  { intros std acts s evs Hrun Hr.
    destruct (run_constructed _ _ _ _ _ Hrun constructed_initial) as [Hc _].
    unfold constructed in Hc. simpl.
    apply running_phase in Hr as [Hp | Hp]; rewrite Hp in Hc;
      destruct Hc as [_ Ho]; by rewrite decide_True. }
  split; [discriminate | split].
  - intros std acts s evs p Hrun Hr [= <-]. split; [discriminate | eauto].
  - intros std acts s evs t p h Hrun Hr Hin.
    destruct (run_constructed _ _ _ _ _ Hrun constructed_initial) as [_ Hev].
    rewrite Forall_forall in Hev.
    destruct (Hev _ Hin) as [t' [= _ -> _]]. split; [discriminate | eauto].
Qed.

Lemma GetInstance_not_null_witness :
  address_of StaticInstance ≠ nullptr
  ∧ deref in_main (address_of StaticInstance) = Some StaticInstance.
Proof.
  destruct GetInstance_not_null as (_ & _ & H).
  apply (H Cxx17 two_calls in_main two_observations 0 (address_of StaticInstance) Ready).
  - vm_compute; reflexivity.
  - reflexivity.
  - apply list_elem_of_here.
Defined.

(** *** Construction outside the class *)


(** C10.  Code outside the class can construct an object of the class
    when the translation unit is compiled as C++11, C++14 or C++17: the
    class has no user-provided constructor, so it is an aggregate, and
    [Singleton s{};] is aggregate initialisation, which calls no
    constructor.  The program that does so in [main] compiles and runs
    with two live objects of the class. *)
Theorem brace_init_makes_second_instance :
  is_aggregate Cxx11 Singleton = true ∧
  is_aggregate Cxx14 Singleton = true ∧
  is_aggregate Cxx17 Singleton = true ∧
  compiles Cxx17 Outside Singleton (Init Automatic EmptyListInit) = true ∧
  compiles Cxx17 Outside Singleton (Init Dynamic EmptyListInit) = true ∧
  ∃ s, run Cxx17 Singleton initial brace_init_program = Some (s, [])
       ∧ objects s = {[ StaticInstance; Created 0 ]}
       ∧ size (objects s) = 2.
Proof.
  repeat split; eexists; repeat split; vm_compute; reflexivity.
Qed.

End RuntimeProofs.

(* ===================================================================== *)
(** ** Further properties of the class and of its accessor                *)
(* ===================================================================== *)

Module UsageProofs.
Import Decl Runtime Usage StaticProofs RuntimeProofs.

(** *** Steps and executions *)

Lemma run_app std c l1 : ∀ l2 s s' evs,
  run std c s (l1 ++ l2) = Some (s', evs) ↔
  ∃ s1 e1 e2, run std c s l1 = Some (s1, e1)
              ∧ run std c s1 l2 = Some (s', e2) ∧ evs = e1 ++ e2.
Proof.
  induction l1 as [| a l1 IH]; intros l2 s s' evs.
  - simpl. split.
    + intros H. by exists s, [], evs.
    + intros (s1 & e1 & e2 & [= <- <-] & H & ->). done.
  - split.
    + intros H. change ((a :: l1) ++ l2) with (a :: (l1 ++ l2)) in H.
      apply run_cons in H as (sa & ea & er & Hstep & Hrest & ->).
      apply IH in Hrest as (s1 & e1 & e2 & H1 & H2 & ->).
      exists s1, (ea ++ e1), e2. simpl. rewrite Hstep, H1.
      split; [done | split; [done | by rewrite app_assoc]].
    + intros (s1 & e1 & e2 & H1 & H2 & ->).
      apply run_cons in H1 as (sa & ea & er & Hstep & Hrest & ->).
      change ((a :: l1) ++ l2) with (a :: (l1 ++ l2)). simpl. rewrite Hstep.
      assert (run std c sa (l1 ++ l2) = Some (s', er ++ e2)) as ->.
      { apply IH. by exists s1, er, e2. }
      by rewrite app_assoc.
Qed.

(** A call of a static member function leaves the process as it was. *)
Lemma step_call_state std c s t name s' evs :
  step std c s (Client t (CallStatic name)) = Some (s', evs) → s' = s.
Proof.
  intros Hstep. step_cases Hstep. simpl in Hstep.
  by destruct (decide (name = "GetInstance")); injection Hstep as <- _.
Qed.

(** Only calls are observed. *)
Lemma step_silent std c s a s' evs :
  step std c s a = Some (s', evs) → is_static_call a = false → evs = [].
Proof.
  intros Hstep Hn.
  destruct a as [ | name v | | | t u | ]; step_cases Hstep; try done.
  destruct u as [st f | v | name]; try discriminate Hn; simpl in Hstep;
    by injection Hstep as _ <-.
Qed.

(** *** Construction inside and outside the class *)

(** X1.  An initialisation that calls the default constructor
    ([Singleton s;], [Singleton()], with automatic or dynamic storage) is
    accepted exactly where the private constructor is accessible: in a
    member or friend of the class (where the definition of the static
    member [instance] is), and nowhere outside it, under every standard. *)
Theorem default_ctor_only_inside std ctx st f :
  calls_default_ctor f = true →
  compiles std ctx Singleton (Init st f)
  = match ctx with MemberOrFriend => true | Outside => false end.
Proof.
  intros Hf. destruct f as [| | |v]; try discriminate Hf;
    destruct ctx, st; reflexivity.
Qed.

Lemma default_ctor_only_inside_witness :
  compiles Cxx17 MemberOrFriend Singleton (Init Automatic DefaultInit) = true
  ∧ compiles Cxx17 Outside Singleton (Init Dynamic ValueInit) = false.
Proof.
  split.
  - apply (default_ctor_only_inside Cxx17 MemberOrFriend Automatic DefaultInit). reflexivity.
  - apply (default_ctor_only_inside Cxx17 Outside Dynamic ValueInit). reflexivity.
Defined.



(** X9.  The class declares no destructor, so the implicit one, public
    and not deleted, is used: a delete-expression on a [Singleton*] (the
    type [GetInstance] returns) is accepted in every context, outside the
    class too, and so is the destruction of an automatic object. *)
Theorem delete_is_accepted (ctx : context) :
  declares Singleton Dtor = false ∧
  delete_compiles ctx Singleton = true ∧
  (∃ d, dtor_requires Singleton Automatic = Some [d] ∧ usable ctx d = true).
Proof.
  split; [reflexivity | split].
  - by destruct ctx.
  - eexists. split; [reflexivity | by destruct ctx].
Qed.

(** *** Calls within an execution *)

(** X3.  Every call of the accessor is answered exactly once, to the
    thread that made it, with the address of the static instance and a
    ready holder: the observations of an execution are the answers to its
    callers, in the order of the calls. *)
Theorem observations_follow_callers std acts s evs :
  run std Singleton initial acts = Some (s, evs) →
  evs = map answer (callers acts) ∧ length evs = length (callers acts).
Proof.
  intros Hrun.
  assert (evs = map answer (callers acts)) as ->; [| by rewrite length_map].
  revert Hrun. pose proof constructed_initial as Hc. revert Hc.
  generalize initial as s0. revert s evs.
  induction acts as [| a rest IH]; intros s evs s0 Hc Hrun.
  - by injection Hrun as _ <-.
  - apply run_cons in Hrun as (s1 & e1 & e2 & Hstep & Hrest & ->).
    destruct (step_constructed _ _ _ _ _ Hstep Hc) as [Hc1 _].
    rewrite (IH _ _ _ Hc1 Hrest). clear IH Hrest.
    destruct (is_static_call a) eqn:Hcall.
    + destruct a as [ | | | | t [ | | name] | ]; try discriminate Hcall.
      step_cases Hstep. apply andb_true_iff in E as [Hr Hcomp].
      rewrite call_accepted in Hcomp. apply bool_decide_eq_true_1 in Hcomp as ->.
      rewrite client_call in Hstep. injection Hstep as <- <-.
      assert (holder s0 = Ready) as ->.
      { unfold constructed in Hc.
        apply running_phase in Hr as [Hp | Hp]; rewrite Hp in Hc; apply Hc. }
      reflexivity.
    + rewrite (step_silent _ _ _ _ _ _ Hstep Hcall).
      destruct a as [ | | | | t [ | | name] | ]; try discriminate Hcall; reflexivity.
Qed.

Lemma observations_follow_callers_witness :
  two_observations = map answer (callers two_calls)
  ∧ length two_observations = length (callers two_calls).
Proof.
  apply (observations_follow_callers Cxx17 two_calls in_main two_observations).
  vm_compute; reflexivity.
Defined.

(** X4.  Calls are invisible to the rest of the program: striking every
    call of a static member function out of an execution (of this class
    or of any other, under any standard, from any state) leaves an
    execution that ends in the same state and observes nothing. *)
Theorem calls_can_be_erased std c acts : ∀ s s' evs,
  run std c s acts = Some (s', evs) →
  run std c s (filter (fun a => is_static_call a = false) acts) = Some (s', []).
Proof.
  induction acts as [| a rest IH]; intros s s' evs Hrun.
  - by injection Hrun as <- _.
  - apply run_cons in Hrun as (s1 & e1 & e2 & Hstep & Hrest & ->).
    specialize (IH _ _ _ Hrest).
    destruct (is_static_call a) eqn:Hcall.
    + rewrite filter_cons_False by (rewrite Hcall; discriminate).
      destruct a as [ | | | | t [ | | name] | ]; try discriminate Hcall.
      by rewrite (step_call_state _ _ _ _ _ _ _ Hstep) in IH.
    + rewrite filter_cons_True by done.
      rewrite (step_silent _ _ _ _ _ _ Hstep Hcall) in Hstep.
      simpl. by rewrite Hstep, IH.
Qed.

Lemma calls_can_be_erased_witness :
  run Cxx17 Singleton initial [ LoadImage; EnterMain ] = Some (in_main, []).
Proof.
  apply (calls_can_be_erased Cxx17 Singleton two_calls initial in_main two_observations).
  vm_compute; reflexivity.
Defined.

(** X5.  A call of [GetInstance] can be added at any point of an
    execution at which code runs, by any thread: the execution still goes
    through and ends in the same state, with the caller's observation (the
    address of the instance) added at that point. *)
Theorem call_can_be_inserted std t l1 l2 s s1 s' e1 e2 :
  run std Singleton s l1 = Some (s1, e1) →
  running s1 = true →
  run std Singleton s1 l2 = Some (s', e2) →
  run std Singleton s (l1 ++ Client t (CallStatic "GetInstance") :: l2)
  = Some (s', e1 ++ Observed t (address_of StaticInstance) (holder s1) :: e2).
Proof.
  intros H1 Hr H2. apply run_app.
  exists s1, e1, (Observed t (address_of StaticInstance) (holder s1) :: e2).
  split; [exact H1 | split; [| reflexivity]].
  cbn [run]. unfold step. rewrite Hr, call_accepted.
  rewrite bool_decide_eq_true_2 by done. cbn [andb].
  rewrite client_call. by rewrite H2.
Qed.

Lemma call_can_be_inserted_witness :
  run Cxx17 Singleton initial
    ([ LoadImage ] ++ Client 4 (CallStatic "GetInstance") :: [ EnterMain ])
  = Some (in_main, [] ++ Observed 4 (address_of StaticInstance) (holder after_load) :: []).
Proof.
  apply (call_can_be_inserted Cxx17 4 [ LoadImage ] [ EnterMain ]
           initial after_load in_main [] []).
  - vm_compute; reflexivity.
  - reflexivity.
  - vm_compute; reflexivity.
Defined.

(** *** Construction happens once *)

Lemma step_phase_after_load std s s' evs :
  step std Singleton s LoadImage = Some (s', evs) → ph s' ≠ NotStarted.
Proof. intros Hstep. step_cases Hstep. rewrite load_Singleton. simpl. done. Qed.

Lemma step_started std c s a s' evs :
  step std c s a = Some (s', evs) → ph s ≠ NotStarted → ph s' ≠ NotStarted.
Proof.
  intros Hstep Hne.
  destruct a as [ | name v | | | t u | ]; step_cases Hstep; try done.
  destruct (client t u s) as [s1 evs1] eqn:Hcl. injection Hstep as <- <-.
  apply client_cases in Hcl as [(_ & Hp & _ & _) | (_ & ->)]; congruence.
Qed.

Lemma no_second_construction std acts : ∀ s s' evs,
  run std Singleton s acts = Some (s', evs) →
  ph s ≠ NotStarted → holder s = Ready →
  (LoadImage ∉ acts) ∧ (InitInstance ∉ acts).
Proof.
  induction acts as [| a rest IH]; intros s s' evs Hrun Hne Hh.
  - split; apply not_elem_of_nil.
  - apply run_cons in Hrun as (s1 & e1 & e2 & Hstep & Hrest & _).
    destruct (IH _ _ _ Hrest (step_started _ _ _ _ _ _ Hstep Hne)
                (step_ready _ _ _ _ _ Hstep Hh)) as [HL HI].
    split; apply not_elem_of_cons; (split; [| done]); intros <-;
      step_cases Hstep; [done | destruct Hdec as [_ Hu]; congruence].
Qed.

(** X6.  The instance is constructed exactly once.  Every execution that
    does anything starts with the load of the image, which constructs the
    instance, and nothing after it constructs it again: there is no second
    load and the instance has no dynamic initialiser that could run. *)
Theorem constructed_exactly_once std acts s evs :
  run std Singleton initial acts = Some (s, evs) →
  acts ≠ [] →
  ∃ rest, acts = LoadImage :: rest ∧ (LoadImage ∉ rest) ∧ (InitInstance ∉ rest).
Proof.
  intros Hrun Hne. destruct acts as [| a rest]; [done |].
  apply run_cons in Hrun as (s1 & e1 & e2 & Hstep & Hrest & _).
  assert (a = LoadImage) as ->.
  { destruct a as [ | name v | | | t u | ]; step_cases Hstep; try done.
    by destruct Hdec. by destruct Hdec. }
  exists rest. split; [done |].
  eapply no_second_construction; [exact Hrest | |].
  - eapply step_phase_after_load; exact Hstep.
  - step_cases Hstep. reflexivity.
Qed.

Lemma constructed_exactly_once_witness :
  ∃ rest, two_calls = LoadImage :: rest ∧ (LoadImage ∉ rest) ∧ (InitInstance ∉ rest).
Proof.
  apply (constructed_exactly_once Cxx17 two_calls in_main two_observations).
  - vm_compute; reflexivity.
  - discriminate.
Defined.

(** *** What the eager guarantee rests on *)

Lemma step_ready_after_load std c s a s' evs :
  trivial_default_ctor c = true →
  step std c s a = Some (s', evs) →
  ready_after_load s →
  ready_after_load s'
  ∧ Forall (fun e => ∃ t, e = answer t) evs.
Proof.
  intros Htriv Hstep Hinv. unfold ready_after_load in *.
  destruct a as [ | name v | | | t u | ]; step_cases Hstep.
  - unfold load. rewrite Htriv. split; [by right | constructor].
  - split; [| constructor]. destruct Hinv as [Hp | Hh]; [congruence | by right].
  - split; [by right | constructor].
  - split; [| constructor]. right. by destruct Hdec.
  - apply andb_true_iff in E as [Hr _]. apply running_phase in Hr.
    assert (holder s = Ready) as Hh.
    { destruct Hinv as [Hp | Hh]; [| done]. destruct Hr; congruence. }
    destruct (client t u s) as [s1 evs1] eqn:Hcl. injection Hstep as <- <-.
    apply client_cases in Hcl as [(-> & _ & Hh' & _) | (-> & ->)].
    + split; [right; congruence | constructor].
    + split; [by right |]. constructor; [| constructor]. exists t. by rewrite Hh.
  - split; [| constructor]. destruct Hinv as [Hp | Hh]; [congruence | by right].
Qed.

(** X7.  The eager guarantee rests on the triviality of the default
    constructor alone ("Trivial default constructor allows constant
    initialization"): for every class whose default constructor is
    trivial, whatever else it declares, a static instance defined as
    [instance] is initialised statically, so in every execution every call
    of the accessor finds the holder ready and is answered with the
    address of the instance. *)
Theorem trivial_ctor_gives_eager_init c std acts s evs t p h :
  trivial_default_ctor c = true →
  run std c initial acts = Some (s, evs) →
  Observed t p h ∈ evs →
  h = Ready ∧ p = address_of StaticInstance.
Proof.
  intros Htriv Hrun Hin.
  assert (Forall (fun e => ∃ t, e = answer t) evs) as Hall.
  { revert Hrun.
    assert (ready_after_load initial) as Hinv by (by left). revert Hinv.
    generalize initial as s0. clear Hin. revert s evs.
    induction acts as [| a rest IH]; intros s evs s0 Hinv Hrun.
    - injection Hrun as _ <-. constructor.
    - apply run_cons in Hrun as (s1 & e1 & e2 & Hstep & Hrest & ->).
      destruct (step_ready_after_load _ _ _ _ _ _ Htriv Hstep Hinv) as [Hinv1 He1].
      apply Forall_app. split; [exact He1 | eauto]. }
  rewrite Forall_forall in Hall.
  by destruct (Hall _ Hin) as [t' [= _ -> ->]].
Qed.

Lemma trivial_ctor_gives_eager_init_witness :
  trivial_default_ctor plain_struct = true
  ∧ Ready = Ready ∧ address_of StaticInstance = address_of StaticInstance.
Proof.
  split; [reflexivity |].
  apply (trivial_ctor_gives_eager_init plain_struct Cxx17
           [ LoadImage; Client 2 (CallStatic "GetInstance") ]
           after_load [ answer 2 ] 2 (address_of StaticInstance) Ready).
  - reflexivity.
  - vm_compute; reflexivity.
  - apply list_elem_of_here.
Defined.

(** *** More than one instance *)

Lemma brace_init_accepted std st :
  is_aggregate std Singleton = true →
  compiles std Outside Singleton (Init st EmptyListInit) = true.
Proof.
  intros Hagg. unfold compiles, init_requires. rewrite Hagg.
  by destruct st.
Qed.

(** Each [Singleton s{};] in [main] adds an object. *)
Lemma brace_inits_run std n : ∀ s,
  is_aggregate std Singleton = true →
  ph s = InMain →
  StaticInstance ∈ objects s →
  (∀ i, Created i ∈ objects s → i < created s) →
  size (objects s) = S (created s) →
  ∃ s', run std Singleton s (replicate n (Client 0 (Init Automatic EmptyListInit)))
        = Some (s', [])
        ∧ ph s' = InMain
        ∧ StaticInstance ∈ objects s'
        ∧ created s' = created s + n
        ∧ size (objects s') = S (created s').
Proof.
  induction n as [| n IH]; intros s Hagg Hp Hin Hfresh Hsize.
  - exists s. simpl. rewrite Nat.add_0_r. done.
  - set (s1 := {| ph := ph s; holder := holder s;
                  objects := {[ Created (created s) ]} ∪ objects s;
                  created := S (created s); allocations := allocations s;
                  globals := globals s |}).
    assert (step std Singleton s (Client 0 (Init Automatic EmptyListInit))
            = Some (s1, [])) as Hstep.
    { unfold step, running. rewrite Hp, (brace_init_accepted _ _ Hagg). reflexivity. }
    destruct (IH s1 Hagg) as (s' & Hrun & Hp' & Hin' & Hc' & Hsize').
    + exact Hp.
    + simpl. by apply elem_of_union_r.
    + simpl. intros i [Hi | Hi]%elem_of_union.
      * apply elem_of_singleton in Hi as [= ->]. lia.
      * specialize (Hfresh _ Hi). lia.
    + simpl. rewrite size_union.
      * rewrite size_singleton, Hsize. reflexivity.
      * apply disjoint_singleton_l. intros Hi. specialize (Hfresh _ Hi). lia.
    + exists s'. cbn [replicate run]. rewrite Hstep, Hrun.
      split; [reflexivity | split; [exact Hp' | split; [exact Hin' |]]].
      simpl in Hc'. split; [lia | exact Hsize'].
Qed.

Lemma brace_inits_overpopulate std n :
  is_aggregate std Singleton = true → overpopulated std n.
Proof.
  intros Hagg.
  destruct (brace_inits_run std n in_main Hagg) as (s & Hrun & Hp & Hin & Hc & Hsize).
  - reflexivity.
  - cbn [in_main objects]. by apply elem_of_singleton.
  - cbn [in_main objects created]. intros i Hi. by apply elem_of_singleton in Hi.
  - cbn [in_main objects created]. apply size_singleton.
  - exists s. cbn [in_main created] in Hc. simpl in Hc. rewrite Hc in Hsize.
    split; [| split; [by apply running_phase; right | done]].
    unfold brace_inits.
    change (LoadImage :: EnterMain :: ?l) with ([ LoadImage; EnterMain ] ++ l).
    apply run_app. exists in_main, [], []. split; [| done].
    destruct std; vm_compute; reflexivity.
Qed.

(** C2.  The process does not keep to one instance when the translation
    unit is compiled as C++11, C++14 or C++17.  For every [n], the program
    whose [main] writes [Singleton s{};] [n] times builds and runs, and
    reaches a state in which code runs and [n] objects of the class live
    beside the static instance: [n + 1] instances, not one.  (The static
    instance itself is always among them: never zero.) *)
Theorem brace_inits_make_many_instances (n : nat) :
  overpopulated Cxx11 n ∧ overpopulated Cxx14 n ∧ overpopulated Cxx17 n.
Proof.
  split; [| split]; by apply brace_inits_overpopulate.
Qed.

End UsageProofs.
